(** * react-shopify-hooks: the hooks bound to the global state

    A shallow embedding of [hooksWithContext]: the persisted reducer, the
    in-memory [sessionIsNew] flag and the actions that the four
    [use...WithContext] hooks add on top of the plain hooks of [./hooks].

    Conventions of the embedding.
    - Values are typed the way the Storefront API types them: a token, an
      expiry and a checkout id are strings, [null] is [None]; a variant id
      is a GraphQL [ID] input (a string or an integer); a quantity is a
      GraphQL [Int], on which the addition of JavaScript numbers is exact.
    - An [async] function is a computation in the monad [M]: it threads the
      store (persisted state, flag, log of remote requests) and may throw.
      An action runs to completion before the next one starts.
    - A remote operation always answers with a result; its failure is a
      result without data.
    - A callback closes over the state of the render that created it; the
      closed-over values are explicit arguments of the definitions below. *)

From Stdlib Require Import String ZArith List Bool Lia.
From ExtLib Require Import Structures.Monad Structures.MonadState
  Structures.MonadExc Data.Monads.StateMonad Data.Monads.EitherMonad.
Import ListNotations.
Import MonadNotation.
Local Open Scope string_scope.
Local Open Scope monad_scope.

#[local] Existing Instance Monad_stateT.

(** ** JavaScript values met by the hooks *)

(** [{ key, value }], an entry of [customAttributes]. *)
Record Attribute := { key : string; value : string }.

Module Js.

(** What a [throw] carries: [new Error(message)]. *)
Inductive Exception :=
| Error (message : string).

(** [Boolean(x)] for a nullable string: [null] and [''] are falsy. *)
Definition truthy (x : option string) : bool :=
  match x with
  | Some s => negb (s =? "")
  | None => false
  end.

(** The values a line item holds in its fields. *)
Inductive Value :=
| Undefined
| Number (n : Z)
| String (s : string)
| Array (elements : list Attribute).

(** SameValueZero between a primitive and a field value.  An array is an
    object: it is equal to no primitive. *)
Definition sameValueZero (x y : Value) : bool :=
  match x, y with
  | Undefined, Undefined => true
  | Number a, Number b => Z.eqb a b
  | String a, String b => String.eqb a b
  | _, _ => false
  end.

End Js.

(** ** Data model *)

(** GraphQL [ID] input: a string or an integer. *)
Inductive ID :=
| IDString (s : string)
| IDInt (n : Z).

(** [{ variantId, quantity, customAttributes }]; [customAttributes] is
    [undefined] when the caller gave none. *)
Record LineItem := {
  variantId : ID;
  quantity : Z;
  customAttributes : option (list Attribute)
}.

Record PersistedState := {
  customerAccessToken : option string;
  customerAccessTokenExpiresAt : option string;
  checkoutId : option string;
  checkoutLineItems : list LineItem
}.

Definition initialState : PersistedState :=
  {| customerAccessToken := None;
     customerAccessTokenExpiresAt := None;
     checkoutId := None;
     checkoutLineItems := [] |}.

(** ** The persisted reducer *)

Record TokenData := { accessToken : string; expiresAt : string }.

(** The four [case] labels of the reducer's [switch]. *)
Inductive ActionType :=
| SET_CUSTOMER_ACCESS_TOKEN
| SET_CHECKOUT_ID
| SET_CHECKOUT_LINE_ITEMS
| RESET.

(** [switch (type)]: the label that the string [type] selects, [None] for
    the [default] branch. *)
Definition case_of (type : string) : option ActionType :=
  if type =? "SET_CUSTOMER_ACCESS_TOKEN" then Some SET_CUSTOMER_ACCESS_TOKEN
  else if type =? "SET_CHECKOUT_ID" then Some SET_CHECKOUT_ID
  else if type =? "SET_CHECKOUT_LINE_ITEMS" then Some SET_CHECKOUT_LINE_ITEMS
  else if type =? "RESET" then Some RESET
  else None.

(** The payload that each case reads: [{ accessToken, expiresAt }], a
    checkout id, the line items; [RESET] and unsupported types read none. *)
Definition PayloadOf (c : option ActionType) : Type :=
  match c with
  | Some SET_CUSTOMER_ACCESS_TOKEN => TokenData
  | Some SET_CHECKOUT_ID => string
  | Some SET_CHECKOUT_LINE_ITEMS => list LineItem
  | Some RESET => unit
  | None => unit
  end.

(** [{ type, payload }]: [type] is any string. *)
Record Action := {
  type : string;
  payload : PayloadOf (case_of type)
}.

Definition invalid_action_type : Js.Exception :=
  Js.Error "Invalid action type. Please use a supported action.".

Definition reducer (state : PersistedState) (action : Action)
  : Js.Exception + PersistedState :=
  match case_of (type action) as c
        return PayloadOf c -> Js.Exception + PersistedState with
  | Some SET_CUSTOMER_ACCESS_TOKEN => fun payload =>
      inr {| customerAccessToken := Some (accessToken payload);
             customerAccessTokenExpiresAt := Some (expiresAt payload);
             checkoutId := checkoutId state;
             checkoutLineItems := checkoutLineItems state |}
  | Some SET_CHECKOUT_ID => fun payload =>
      inr {| customerAccessToken := customerAccessToken state;
             customerAccessTokenExpiresAt := customerAccessTokenExpiresAt state;
             checkoutId := Some payload;
             checkoutLineItems := checkoutLineItems state |}
  | Some SET_CHECKOUT_LINE_ITEMS => fun payload =>
      inr {| customerAccessToken := customerAccessToken state;
             customerAccessTokenExpiresAt := customerAccessTokenExpiresAt state;
             checkoutId := checkoutId state;
             checkoutLineItems := payload |}
  | Some RESET => fun _ => inr initialState
  | None => fun _ => inl invalid_action_type
  end (payload action).

(** ** The store and the monad of asynchronous actions *)

(** [...args] of an action that forwards its arguments to [./hooks]. *)
Definition Args := list string.

(** A call of a remote operation, as it leaves the process. *)
Inductive Request :=
| CustomerAccessTokenCreate (args : Args)
| CustomerAccessTokenRenew (token : option string)
| CustomerAccessTokenDelete (token : option string)
| CheckoutCreate (args : Args)
| CheckoutLineItemsReplace (lineItems : list LineItem)
| CustomerActivate (args : Args)
| CustomerReset (args : Args)
| CustomerResetByUrl (args : Args).

Record UserError := { field : string; message : string }.

(** The result of a remote operation: [result.data] is the payload, absent
    on a rejection, which lists its [userErrors]. *)
Record RemoteResult (D : Type) := {
  data : option D;
  userErrors : list UserError
}.
Arguments data {D} _.
Arguments userErrors {D} _.

Record CheckoutData := { id : string }.

(** Modelled from the spec: the Remote Session Gateway behind [./hooks],
    which is not part of the sources.  Every operation answers with a
    [RemoteResult]; the answers are arbitrary. *)
Record Gateway := {
  customerAccessTokenCreate : Args -> RemoteResult TokenData;
  customerAccessTokenRenew : option string -> RemoteResult TokenData;
  customerAccessTokenDelete : option string -> RemoteResult unit;
  checkoutCreate : Args -> RemoteResult CheckoutData;
  checkoutLineItemsReplace : list LineItem -> RemoteResult unit;
  customerActivate : Args -> RemoteResult TokenData;
  customerReset : Args -> RemoteResult TokenData;
  customerResetByUrl : Args -> RemoteResult TokenData
}.

(** [persisted] is the value of [useLocalStorageReducer], [sessionIsNew]
    the value of [useSessionStorageState('sessionIsNew', true)], [requests]
    the remote calls made so far, oldest first. *)
Record Store := {
  persisted : PersistedState;
  sessionIsNew : bool;
  requests : list Request
}.

Definition M : Type -> Type := stateT Store (sum Js.Exception).

Definition run {A : Type} (c : M A) (s : Store) : Js.Exception + (A * Store) :=
  runStateT c s.

(** [dispatch(action)] of the persisted reducer. *)
Definition dispatch (action : Action) : M unit :=
  s <- get ;;
  match reducer (persisted s) action with
  | inr state' =>
      put {| persisted := state';
             sessionIsNew := sessionIsNew s;
             requests := requests s |}
  | inl e => raise e
  end.

Definition setSessionIsNew (b : bool) : M unit :=
  s <- get ;;
  put {| persisted := persisted s;
         sessionIsNew := b;
         requests := requests s |}.

(** A remote call: the request leaves, the gateway's answer comes back. *)
Definition remote {D : Type} (r : Request) (answer : RemoteResult D)
  : M (RemoteResult D) :=
  s <- get ;;
  put {| persisted := persisted s;
         sessionIsNew := sessionIsNew s;
         requests := (requests s ++ [r])%list |} ;;
  ret answer.

(** ** The functions of [lodash/fp] that [addToCheckout] uses *)

Module Lodash.

Definition valueOfID (x : ID) : Js.Value :=
  match x with
  | IDString s => Js.String s
  | IDInt n => Js.Number n
  end.

(** [values(lineItem)]: the values of the own properties, in order. *)
Definition values (lineItem : LineItem) : list Js.Value :=
  [ valueOfID (variantId lineItem);
    Js.Number (quantity lineItem);
    match customAttributes lineItem with
    | Some elements => Js.Array elements
    | None => Js.Undefined
    end ].

(** [includes(value, collection)] on an object: is [value] among the
    values of its properties (SameValueZero). *)
Definition includes (value : Js.Value) (collection : LineItem) : bool :=
  existsb (Js.sameValueZero value) (values collection).

(** [map(iteratee, collection)] for an iteratee that also assigns a
    variable of the enclosing scope; [flag] is that variable. *)
Fixpoint map {A B : Type} (iteratee : A -> bool -> B * bool)
         (collection : list A) (flag : bool) : list B * bool :=
  match collection with
  | [] => ([], flag)
  | x :: rest =>
      let '(y, flag') := iteratee x flag in
      let '(ys, flag'') := map iteratee rest flag' in
      (y :: ys, flag'')
  end.

(** The deep merge of two [customAttributes].  An [undefined] source is
    skipped; an array source is merged index by index into the array of
    the object (into [[]] when the object has none), and the entries
    [{ key, value }] of the source replace those at their index. *)
Definition mergeAttributes (objValue srcValue : option (list Attribute))
  : option (list Attribute) :=
  match srcValue with
  | None => objValue
  | Some src =>
      let obj := match objValue with Some obj => obj | None => [] end in
      Some (src ++ skipn (List.length src) obj)%list
  end.

(** [mergeWith(customizer, object, source)] on line items.  The result is a
    fresh object.  For each property of the source, the customizer is asked
    with the two values and the key; what it returns is assigned, and when
    it returns [undefined] the default merge applies: a string or a number
    of the source is assigned, an array is merged deeply.  The customizer
    of [addToCheckout] returns a value for the key of [quantity] alone, the
    property that holds numbers. *)
Definition mergeWith (customizer : Z -> Z -> string -> option Z)
           (object source : LineItem) : LineItem :=
  {| variantId := variantId source;
     quantity :=
       match customizer (quantity object) (quantity source) "quantity" with
       | Some newValue => newValue
       | None => quantity source
       end;
     customAttributes :=
       mergeAttributes (customAttributes object) (customAttributes source) |}.

End Lodash.

(** ** [./hooks]: the plain hooks *)

(** Modelled from the spec: the module [./hooks] is not part of the
    sources.  Each operation that the hooks with context take from it is one
    call of the gateway operation of the same purpose, and returns the
    result of that call. *)
Module Hooks.
Section WithGateway.

Variable gateway : Gateway.

Definition createCustomerAccessToken (args : Args) :=
  remote (CustomerAccessTokenCreate args)
         (customerAccessTokenCreate gateway args).

Definition renewCustomerAccessToken (token : option string) :=
  remote (CustomerAccessTokenRenew token)
         (customerAccessTokenRenew gateway token).

Definition deleteCustomerAccessToken (token : option string) :=
  remote (CustomerAccessTokenDelete token)
         (customerAccessTokenDelete gateway token).

Definition createCheckout (args : Args) :=
  remote (CheckoutCreate args) (checkoutCreate gateway args).

Definition lineItemsReplace (lineItems : list LineItem) :=
  remote (CheckoutLineItemsReplace lineItems)
         (checkoutLineItemsReplace gateway lineItems).

Definition activateCustomer (args : Args) :=
  remote (CustomerActivate args) (customerActivate gateway args).

Definition resetCustomer (args : Args) :=
  remote (CustomerReset args) (customerReset gateway args).

Definition resetCustomerByUrl (args : Args) :=
  remote (CustomerResetByUrl args) (customerResetByUrl gateway args).

End WithGateway.
End Hooks.

(** [dispatch({ type: 'SET_CUSTOMER_ACCESS_TOKEN', payload: { accessToken,
    expiresAt } })] with the two fields of [result.data]. *)
Definition dispatchToken (d : TokenData) : M unit :=
  dispatch {| type := "SET_CUSTOMER_ACCESS_TOKEN";
              payload := {| accessToken := accessToken d;
                            expiresAt := expiresAt d |} |}.

(** ** useShopifyCustomerAccessTokenWithContext *)

Module useShopifyCustomerAccessTokenWithContext.
Section Render.

Variable gateway : Gateway.

(** The values of the render that the callbacks close over. *)
Variable customerAccessToken : option string.
Variable sessionIsNew : bool.

Definition signOut : M unit :=
  (if Js.truthy customerAccessToken
   then _ <- Hooks.deleteCustomerAccessToken gateway customerAccessToken ;;
        ret tt
   else ret tt) ;;
  dispatch {| type := "RESET"; payload := tt |} ;;
  setSessionIsNew true.

Definition renewToken : M (RemoteResult TokenData) :=
  result <- Hooks.renewCustomerAccessToken gateway customerAccessToken ;;
  match data result with
  | Some d =>
      dispatchToken d ;;
      ret result
  | None =>
      signOut ;;
      ret result
  end.

Definition renewTokenAutomatically : M unit :=
  _ <- renewToken ;;
  setSessionIsNew false.

(** The guard of the effect. *)
Definition renewsAutomatically : bool :=
  Js.truthy customerAccessToken && sessionIsNew.

(** [useEffect(() => { if (customerAccessToken && sessionIsNew)
    renewTokenAutomatically() }, ...)]. *)
Definition effect : M unit :=
  if renewsAutomatically then renewTokenAutomatically else ret tt.


Definition signIn (args : Args) : M (RemoteResult TokenData) :=
  result <- Hooks.createCustomerAccessToken gateway args ;;
  match data result with
  | Some d =>
      dispatchToken d ;;
      setSessionIsNew false
  | None => ret tt
  end ;;
  ret result.

End Render.
End useShopifyCustomerAccessTokenWithContext.

(** ** useShopifyCheckoutWithContext *)

Module useShopifyCheckoutWithContext.
Section Render.

Variable gateway : Gateway.
Variable autoCreate : bool.
Variable checkoutId : option string.

Definition createCheckoutWithContext (args : Args)
  : M (RemoteResult CheckoutData) :=
  result <- Hooks.createCheckout gateway args ;;
  match data result with
  | Some d => dispatch {| type := "SET_CHECKOUT_ID"; payload := id d |}
  | None => ret tt
  end ;;
  ret result.

(** The guard of the effect. *)
Definition createsAutomatically : bool :=
  autoCreate && negb (Js.truthy checkoutId).

(** [useEffect(() => { if (autoCreate && !checkoutId)
    createCheckoutWithContext() }, ...)]. *)
Definition effect : M unit :=
  if createsAutomatically
  then _ <- createCheckoutWithContext [] ;; ret tt
  else ret tt.

End Render.
End useShopifyCheckoutWithContext.

(** ** useShopifyProductVariantWithContext *)

Module useShopifyProductVariantWithContext.
Section Render.

Variable gateway : Gateway.
Variable variantId : ID.
Variable checkoutLineItems : list LineItem.

(** The customizer given to [mergeWith]. *)
Definition customizer (objValue srcValue : Z) (key : string) : option Z :=
  if key =? "quantity" then Some (objValue + srcValue)%Z else None.

(** The iteratee given to [map]; [duplicateResolved] is the variable it
    assigns. *)
Definition iteratee (newLineItem lineItem : LineItem)
           (duplicateResolved : bool) : LineItem * bool :=
  if Lodash.includes (Lodash.valueOfID variantId) lineItem
  then (Lodash.mergeWith customizer lineItem newLineItem, true)
  else (lineItem, duplicateResolved).

(** The sequence that [addToCheckout] sends and stores. *)
Definition nextLineItems (quantity : option Z)
           (customAttributes : option (list Attribute)) : list LineItem :=
  let quantity := match quantity with Some q => q | None => 1%Z end in
  let newLineItem :=
    Build_LineItem variantId quantity customAttributes in
  let '(mergedLineItems, duplicateResolved) :=
    Lodash.map (iteratee newLineItem) checkoutLineItems false in
  if duplicateResolved
  then mergedLineItems
  else newLineItem :: mergedLineItems.

Definition addToCheckout (quantity : option Z)
           (customAttributes : option (list Attribute)) : M unit :=
  let nextLineItems := nextLineItems quantity customAttributes in
  _ <- Hooks.lineItemsReplace gateway nextLineItems ;;
  dispatch {| type := "SET_CHECKOUT_LINE_ITEMS";
              payload := nextLineItems |}.

End Render.
End useShopifyProductVariantWithContext.

(** ** useShopifyCustomerWithContext *)

Module useShopifyCustomerWithContext.
Section Render.

Variable gateway : Gateway.

Definition activateCustomer (args : Args) : M (RemoteResult TokenData) :=
  result <- Hooks.activateCustomer gateway args ;;
  match data result with
  | Some d => dispatchToken d
  | None => ret tt
  end ;;
  ret result.

Definition resetCustomer (args : Args) : M (RemoteResult TokenData) :=
  result <- Hooks.resetCustomer gateway args ;;
  match data result with
  | Some d => dispatchToken d
  | None => ret tt
  end ;;
  ret result.

Definition resetCustomerByUrl (args : Args) : M (RemoteResult TokenData) :=
  result <- Hooks.resetCustomerByUrl gateway args ;;
  match data result with
  | Some d => dispatchToken d
  | None => ret tt
  end ;;
  ret result.

End Render.
End useShopifyCustomerWithContext.

(** ** A process lifetime

    What happens to the store during the life of the process is a sequence
    of calls: the effects that run when a render commits, and the actions
    that the application invokes.  Each is the callback of the latest
    render: it closes over the state the store holds when it is called. *)

Inductive Call :=
| RenewEffect
| CreateEffect (autoCreate : bool)
| SignIn (args : Args)
| RenewToken
| SignOut
| CreateCheckout (args : Args)
| AddToCheckout (variantId : ID) (quantity : option Z)
                (customAttributes : option (list Attribute))
| ActivateCustomer (args : Args)
| ResetCustomer (args : Args)
| ResetCustomerByUrl (args : Args).

Definition perform (gateway : Gateway) (call : Call) : M unit :=
  s <- get ;;
  let state := persisted s in
  match call with
  | RenewEffect =>
      useShopifyCustomerAccessTokenWithContext.effect
        gateway (customerAccessToken state) (sessionIsNew s)
  | CreateEffect autoCreate =>
      useShopifyCheckoutWithContext.effect
        gateway autoCreate (checkoutId state)
  | SignIn args =>
      _ <- useShopifyCustomerAccessTokenWithContext.signIn gateway args ;;
      ret tt
  | RenewToken =>
      _ <- useShopifyCustomerAccessTokenWithContext.renewToken
             gateway (customerAccessToken state) ;;
      ret tt
  | SignOut =>
      useShopifyCustomerAccessTokenWithContext.signOut
        gateway (customerAccessToken state)
  | CreateCheckout args =>
      _ <- useShopifyCheckoutWithContext.createCheckoutWithContext
             gateway args ;;
      ret tt
  | AddToCheckout variantId quantity customAttributes =>
      useShopifyProductVariantWithContext.addToCheckout
        gateway variantId (checkoutLineItems state) quantity customAttributes
  | ActivateCustomer args =>
      _ <- useShopifyCustomerWithContext.activateCustomer gateway args ;;
      ret tt
  | ResetCustomer args =>
      _ <- useShopifyCustomerWithContext.resetCustomer gateway args ;;
      ret tt
  | ResetCustomerByUrl args =>
      _ <- useShopifyCustomerWithContext.resetCustomerByUrl gateway args ;;
      ret tt
  end.

(** The calls of a lifetime, each with the gateway as it answers then. *)
Definition Lifetime := list (Gateway * Call).

Fixpoint play (calls : Lifetime) : M unit :=
  match calls with
  | [] => ret tt
  | (gateway, call) :: rest => perform gateway call ;; play rest
  end.

(** The store after the calls; [None] if one of them threw. *)
Definition after (calls : Lifetime) (s : Store) : option Store :=
  match run (play calls) s with
  | inr (_, s') => Some s'
  | inl _ => None
  end.



(** Counts over a lifetime that starts in store [s]. *)
Fixpoint count (p : Gateway -> Call -> Store -> bool)
         (calls : Lifetime) (s : Store) : nat :=
  match calls with
  | [] => 0
  | (gateway, call) :: rest =>
      (if p gateway call s then 1 else 0) +
      match run (perform gateway call) s with
      | inr (_, s') => count p rest s'
      | inl _ => 0
      end
  end.



(** The store of a fresh process: nothing persisted, a new session. *)
Definition freshStore : Store :=
  {| persisted := initialState; sessionIsNew := true; requests := [] |}.

(** A gateway that grants every request, and one that rejects them all. *)
Definition granting (token expiry checkout : string) : Gateway :=
  let tokenData :=
    {| data := Some {| accessToken := token; expiresAt := expiry |};
       userErrors := [] |} in
  {| customerAccessTokenCreate := fun _ => tokenData;
     customerAccessTokenRenew := fun _ => tokenData;
     customerAccessTokenDelete := fun _ => {| data := Some tt; userErrors := [] |};
     checkoutCreate := fun _ =>
       {| data := Some {| id := checkout |}; userErrors := [] |};
     checkoutLineItemsReplace := fun _ =>
       {| data := Some tt; userErrors := [] |};
     customerActivate := fun _ => tokenData;
     customerReset := fun _ => tokenData;
     customerResetByUrl := fun _ => tokenData |}.

Definition rejecting (errors : list UserError) : Gateway :=
  let rejected (D : Type) : RemoteResult D :=
    {| data := None; userErrors := errors |} in
  {| customerAccessTokenCreate := fun _ => rejected _;
     customerAccessTokenRenew := fun _ => rejected _;
     customerAccessTokenDelete := fun _ => rejected _;
     checkoutCreate := fun _ => rejected _;
     checkoutLineItemsReplace := fun _ => rejected _;
     customerActivate := fun _ => rejected _;
     customerReset := fun _ => rejected _;
     customerResetByUrl := fun _ => rejected _ |}.

(** ** Vocabulary of the statements *)

(** The type strings of the actions that the reducer supports. *)
Definition supportedTypes : list string :=
  [ "SET_CUSTOMER_ACCESS_TOKEN"; "SET_CHECKOUT_ID";
    "SET_CHECKOUT_LINE_ITEMS"; "RESET" ].

(** The store with one more request in its log. *)
Definition requested (r : Request) (s : Store) : Store :=
  {| persisted := persisted s;
     sessionIsNew := sessionIsNew s;
     requests := (requests s ++ [r])%list |}.

(** The persisted state with a new token and expiry. *)
Definition withToken (d : TokenData) (state : PersistedState)
  : PersistedState :=
  {| customerAccessToken := Some (accessToken d);
     customerAccessTokenExpiresAt := Some (expiresAt d);
     checkoutId := checkoutId state;
     checkoutLineItems := checkoutLineItems state |}.

(** The persisted state with a new checkout id, with new line items. *)
Definition withCheckoutId (checkout : string) (state : PersistedState)
  : PersistedState :=
  {| customerAccessToken := customerAccessToken state;
     customerAccessTokenExpiresAt := customerAccessTokenExpiresAt state;
     checkoutId := Some checkout;
     checkoutLineItems := checkoutLineItems state |}.

Definition withLineItems (lineItems : list LineItem) (state : PersistedState)
  : PersistedState :=
  {| customerAccessToken := customerAccessToken state;
     customerAccessTokenExpiresAt := customerAccessTokenExpiresAt state;
     checkoutId := checkoutId state;
     checkoutLineItems := lineItems |}.

(** The store with another persisted state. *)
Definition persisting (state : PersistedState) (s : Store) : Store :=
  {| persisted := state;
     sessionIsNew := sessionIsNew s;
     requests := requests s |}.

(** The requests that [signOut] makes when it closes over [token]. *)
Definition deletion (token : option string) : list Request :=
  if Js.truthy token then [CustomerAccessTokenDelete token] else [].

(** [addToCheckout(quantity, customAttributes)] of the hook for
    [variantId], as the application calls it. *)
Record Addition := {
  added : ID;
  howMany : option Z;
  attributes : option (list Attribute)
}.

(** The candidate line item of the call: [quantity] defaults to 1. *)
Definition newLineItemOf (a : Addition) : LineItem :=
  {| variantId := added a;
     quantity := match howMany a with Some q => q | None => 1%Z end;
     customAttributes := attributes a |}.

(** A sequence of awaited calls of [addToCheckout]. *)
Definition additions (calls : list (Gateway * Addition)) : Lifetime :=
  List.map (fun '(gateway, a) =>
              (gateway, AddToCheckout (added a) (howMany a) (attributes a)))
           calls.

(** Is the line item taken for a duplicate of [variantId]? *)
Definition duplicates (variantId : ID) (lineItem : LineItem) : bool :=
  Lodash.includes (Lodash.valueOfID variantId) lineItem.

(** What the iteratee of [addToCheckout] makes of a line item. *)
Definition merged (variantId : ID) (newLineItem lineItem : LineItem)
  : LineItem :=
  if duplicates variantId lineItem
  then Lodash.mergeWith
         (useShopifyProductVariantWithContext.customizer) lineItem newLineItem
  else lineItem.

(** Is the id a string? *)
Definition isString (x : ID) : bool :=
  match x with
  | IDString _ => true
  | IDInt _ => false
  end.

(** Does this call, made in store [s], create a checkout automatically? *)
Definition startsCreation (call : Call) (s : Store) : bool :=
  match call with
  | CreateEffect autoCreate =>
      useShopifyCheckoutWithContext.createsAutomatically
        autoCreate (checkoutId (persisted s))
  | _ => false
  end.

Definition automaticCreations : Lifetime -> Store -> nat :=
  count (fun _ => startsCreation).




(** ** Vocabulary of the further properties *)

(** The token and its expiry are both set or both [null]. *)
Definition paired (state : PersistedState) : bool :=
  match customerAccessToken state, customerAccessTokenExpiresAt state with
  | Some _, Some _ => true
  | None, None => true
  | _, _ => false
  end.

(** The ways in which one call changes the persisted state. *)
Inductive Change (state : PersistedState) : PersistedState -> Prop :=
| Unchanged : Change state state
| ToInitial : Change state initialState
| NewToken (d : TokenData) : Change state (withToken d state)
| NewCheckoutId (checkout : string) : Change state (withCheckoutId checkout state)
| NewLineItems (lineItems : list LineItem) :
    Change state (withLineItems lineItems state).

Definition isAddToCheckout (call : Call) : bool :=
  match call with
  | AddToCheckout _ _ _ => true
  | _ => false
  end.


(** The state after a series of dispatches, or what the first failing one
    threw. *)
Fixpoint reduce (state : PersistedState) (actions : list Action)
  : Js.Exception + PersistedState :=
  match actions with
  | [] => inr state
  | action :: rest =>
      match reducer state action with
      | inr state' => reduce state' rest
      | inl e => inl e
      end
  end.

(** The four actions that the hooks dispatch. *)
Definition setCustomerAccessToken (d : TokenData) : Action :=
  {| type := "SET_CUSTOMER_ACCESS_TOKEN"; payload := d |}.

Definition setCheckoutId (checkout : string) : Action :=
  {| type := "SET_CHECKOUT_ID"; payload := checkout |}.

Definition setCheckoutLineItems (lineItems : list LineItem) : Action :=
  {| type := "SET_CHECKOUT_LINE_ITEMS"; payload := lineItems |}.

Definition reset : Action :=
  {| type := "RESET"; payload := tt |}.


(** Does the gateway reject the creation of a checkout? *)
Definition rejectsCheckout (gateway : Gateway) : bool :=
  match data (checkoutCreate gateway []) with
  | Some _ => false
  | None => true
  end.

(** * Properties *)

(** ** The reducer *)

Lemma case_of_supported (type : string) :
  In type supportedTypes <-> case_of type <> None.
Proof.
  unfold case_of, supportedTypes. simpl. split.
  - intros [H | [H | [H | [H | []]]]]; subst; simpl; discriminate.
  - repeat
      match goal with
      | |- context [String.eqb type ?l] =>
          destruct (String.eqb_spec type l) as [-> | _]; [intros _; tauto |]
      end.
    intros H. now elim H.
Qed.

Lemma reducer_default (state : PersistedState) (action : Action) :
  case_of (type action) = None -> reducer state action = inl invalid_action_type.
Proof.
  destruct action as [type payload]. unfold reducer. simpl.
  revert payload. intros payload H. revert payload. rewrite H. reflexivity.
Qed.

Lemma reducer_case (state : PersistedState) (action : Action) :
  case_of (type action) <> None -> exists state', reducer state action = inr state'.
Proof.
  destruct action as [type payload]. unfold reducer. simpl.
  revert payload. destruct (case_of type) as [[ | | | ] | ]; intros payload H;
    try (eexists; reflexivity).
  now elim H.
Qed.


Lemma run_bind {A B : Type} (c : M A) (k : A -> M B) (s : Store) :
  run (bind c k) s =
  match run c s with
  | inr (a, s') => run (k a) s'
  | inl e => inl e
  end.
Proof.
  unfold run. cbn. destruct (runStateT c s) as [e | [a s']]; reflexivity.
Qed.



(** ** The actions on the customer access token *)

Import useShopifyCustomerAccessTokenWithContext.

Lemma run_remote {D : Type} (r : Request) (answer : RemoteResult D) (s : Store) :
  run (remote r answer) s = inr (answer, requested r s).
Proof. reflexivity. Qed.

Lemma run_setSessionIsNew (b : bool) (s : Store) :
  run (setSessionIsNew b) s =
  inr (tt, {| persisted := persisted s; sessionIsNew := b;
              requests := requests s |}).
Proof. reflexivity. Qed.

Lemma run_dispatchToken (d : TokenData) (s : Store) :
  run (dispatchToken d) s = inr (tt, persisting (withToken d (persisted s)) s).
Proof. reflexivity. Qed.

Lemma run_signOut (gateway : Gateway) (token : option string) (s : Store) :
  run (signOut gateway token) s =
  inr (tt, {| persisted := initialState;
              sessionIsNew := true;
              requests := (requests s ++ deletion token)%list |}).
Proof.
  unfold signOut, deletion. destruct (Js.truthy token); cbn.
  - reflexivity.
  - now rewrite app_nil_r.
Qed.

(** C5.  Whatever the store holds, whatever token the callback closes over
    and whatever the gateway answers, [signOut] completes, leaves the
    persisted state equal to the initial state and the flag [sessionIsNew]
    true; it asks the gateway to delete the token only when the token is
    present. *)
Theorem signOut_resets (gateway : Gateway) (token : option string) (s : Store) :
  exists s',
    run (signOut gateway token) s = inr (tt, s') /\
    persisted s' = initialState /\
    customerAccessToken (persisted s') = None /\
    customerAccessTokenExpiresAt (persisted s') = None /\
    checkoutId (persisted s') = None /\
    checkoutLineItems (persisted s') = [] /\
    sessionIsNew s' = true /\
    requests s' = (requests s ++ deletion token)%list /\
    (token = None -> requests s' = requests s) /\
    (forall r, In r (deletion token) ->
       r = CustomerAccessTokenDelete token /\ token <> None).
Proof.
  eexists. split; [apply run_signOut |]. cbn.
  repeat split; try reflexivity.
  - intros ->. cbn. now rewrite app_nil_r.
  - unfold deletion in H. destruct (Js.truthy token); [| contradiction].
    destruct H as [<- | []]. reflexivity.
  - unfold deletion in H. destruct token; [discriminate |].
    cbn in H. contradiction.
Qed.

Lemma signOut_resets_witness :
  exists s',
    run (signOut (rejecting []) (Some "token"))
        {| persisted := withCheckoutId "checkout" initialState;
           sessionIsNew := false; requests := [] |} = inr (tt, s') /\
    persisted s' = initialState /\
    sessionIsNew s' = true /\
    requests s' = [CustomerAccessTokenDelete (Some "token")].
Proof.
  destruct (signOut_resets (rejecting []) (Some "token")
              {| persisted := withCheckoutId "checkout" initialState;
                 sessionIsNew := false; requests := [] |})
    as (s' & Hrun & Hstate & _ & _ & _ & _ & Hflag & Hrequests & _).
  exists s'. repeat split; assumption.
Defined.

Lemma run_renewToken (gateway : Gateway) (token : option string) (s : Store) :
  let result := customerAccessTokenRenew gateway token in
  let s1 := requested (CustomerAccessTokenRenew token) s in
  run (renewToken gateway token) s =
  match data result with
  | Some d => inr (result, persisting (withToken d (persisted s)) s1)
  | None =>
      match run (signOut gateway token) s1 with
      | inr (_, s2) => inr (result, s2)
      | inl e => inl e
      end
  end.
Proof.
  intros result s1. unfold renewToken.
  rewrite run_bind. unfold Hooks.renewCustomerAccessToken.
  rewrite run_remote. fold result. fold s1.
  destruct (data result) as [d |].
  - reflexivity.
  - now rewrite run_bind.
Qed.

(** C7.  [renewToken] asks the gateway to renew the token it closes over.
    With a data payload in the result it dispatches the returned token and
    expiry and returns the result; without one it runs [signOut] and then
    returns the result: it completes, it does not throw. *)
Theorem renewToken_sets_token_or_signs_out
        (gateway : Gateway) (token : option string) (s : Store) :
  let result := customerAccessTokenRenew gateway token in
  let s1 := requested (CustomerAccessTokenRenew token) s in
  match data result with
  | Some d =>
      run (renewToken gateway token) s =
      inr (result, persisting (withToken d (persisted s)) s1)
  | None =>
      run (renewToken gateway token) s =
      match run (signOut gateway token) s1 with
      | inr (_, s2) => inr (result, s2)
      | inl e => inl e
      end /\
      run (renewToken gateway token) s =
      inr (result,
           {| persisted := initialState;
              sessionIsNew := true;
              requests := (requests s1 ++ deletion token)%list |})
  end.
Proof.
  intros result s1. rewrite run_renewToken. fold result. fold s1.
  destruct (data result) as [d |].
  - reflexivity.
  - split; [reflexivity |]. now rewrite run_signOut.
Qed.

(** ** Actions that dispatch on success only *)

Lemma run_signIn (gateway : Gateway) (args : Args) (s : Store) :
  let result := customerAccessTokenCreate gateway args in
  let s1 := requested (CustomerAccessTokenCreate args) s in
  run (signIn gateway args) s =
  inr (result,
       match data result with
       | Some d => {| persisted := withToken d (persisted s);
                      sessionIsNew := false;
                      requests := requests s1 |}
       | None => s1
       end).
Proof.
  intros result s1. unfold signIn, Hooks.createCustomerAccessToken.
  rewrite run_bind, run_remote. fold result. fold s1.
  destruct (data result); reflexivity.
Qed.

Lemma run_createCheckoutWithContext (gateway : Gateway) (args : Args) (s : Store) :
  let result := checkoutCreate gateway args in
  let s1 := requested (CheckoutCreate args) s in
  run (useShopifyCheckoutWithContext.createCheckoutWithContext gateway args) s =
  inr (result,
       match data result with
       | Some d => persisting (withCheckoutId (id d) (persisted s)) s1
       | None => s1
       end).
Proof.
  intros result s1.
  unfold useShopifyCheckoutWithContext.createCheckoutWithContext,
    Hooks.createCheckout.
  rewrite run_bind, run_remote. fold result. fold s1.
  destruct (data result); reflexivity.
Qed.

(** The three actions of [useShopifyCustomerWithContext] have one shape. *)
Lemma run_customer_action
      (r : Request) (result : RemoteResult TokenData) (s : Store) :
  run (result' <- remote r result ;;
       match data result' with
       | Some d => dispatchToken d
       | None => ret tt
       end ;;
       ret result') s =
  inr (result,
       match data result with
       | Some d => persisting (withToken d (persisted s)) (requested r s)
       | None => requested r s
       end).
Proof.
  rewrite run_bind, run_remote. destruct (data result); reflexivity.
Qed.

(** C10.  When the result of the gateway has no data payload, [signIn],
    [createCheckout], [activateCustomer], [resetCustomer] and
    [resetCustomerByUrl] dispatch nothing: they complete with the rejected
    result as their value, and the store differs only by the request that
    was made; the persisted state and the flag are what they were. *)
Theorem rejected_action_leaves_state (gateway : Gateway) (args : Args) (s : Store) :
  (data (customerAccessTokenCreate gateway args) = None ->
     run (signIn gateway args) s =
     inr (customerAccessTokenCreate gateway args,
          requested (CustomerAccessTokenCreate args) s)) /\
  (data (checkoutCreate gateway args) = None ->
     run (useShopifyCheckoutWithContext.createCheckoutWithContext gateway args) s =
     inr (checkoutCreate gateway args, requested (CheckoutCreate args) s)) /\
  (data (customerActivate gateway args) = None ->
     run (useShopifyCustomerWithContext.activateCustomer gateway args) s =
     inr (customerActivate gateway args, requested (CustomerActivate args) s)) /\
  (data (customerReset gateway args) = None ->
     run (useShopifyCustomerWithContext.resetCustomer gateway args) s =
     inr (customerReset gateway args, requested (CustomerReset args) s)) /\
  (data (customerResetByUrl gateway args) = None ->
     run (useShopifyCustomerWithContext.resetCustomerByUrl gateway args) s =
     inr (customerResetByUrl gateway args,
          requested (CustomerResetByUrl args) s)) /\
  (forall r : Request,
     persisted (requested r s) = persisted s /\
     sessionIsNew (requested r s) = sessionIsNew s).
Proof.
  repeat split.
  - intros H. rewrite run_signIn, H. reflexivity.
  - intros H. rewrite run_createCheckoutWithContext, H. reflexivity.
  - intros H.
    unfold useShopifyCustomerWithContext.activateCustomer, Hooks.activateCustomer.
    rewrite run_customer_action, H. reflexivity.
  - intros H.
    unfold useShopifyCustomerWithContext.resetCustomer, Hooks.resetCustomer.
    rewrite run_customer_action, H. reflexivity.
  - intros H.
    unfold useShopifyCustomerWithContext.resetCustomerByUrl,
      Hooks.resetCustomerByUrl.
    rewrite run_customer_action, H. reflexivity.
Qed.

Lemma rejected_action_leaves_state_witness :
  let gateway := rejecting [{| field := "email"; message := "Unidentified customer" |}] in
  let s := {| persisted := withCheckoutId "checkout" initialState;
              sessionIsNew := true; requests := [] |} in
  run (signIn gateway ["a@b.c"; "secret"]) s =
    inr (customerAccessTokenCreate gateway ["a@b.c"; "secret"],
         requested (CustomerAccessTokenCreate ["a@b.c"; "secret"]) s) /\
  run (useShopifyCheckoutWithContext.createCheckoutWithContext gateway []) s =
    inr (checkoutCreate gateway [], requested (CheckoutCreate []) s) /\
  run (useShopifyCustomerWithContext.activateCustomer gateway ["id"]) s =
    inr (customerActivate gateway ["id"], requested (CustomerActivate ["id"]) s) /\
  run (useShopifyCustomerWithContext.resetCustomer gateway ["id"]) s =
    inr (customerReset gateway ["id"], requested (CustomerReset ["id"]) s) /\
  run (useShopifyCustomerWithContext.resetCustomerByUrl gateway ["url"]) s =
    inr (customerResetByUrl gateway ["url"],
         requested (CustomerResetByUrl ["url"]) s).
Proof.
  intros gateway s.
  split; [| split; [| split; [| split]]].
  - apply (rejected_action_leaves_state gateway ["a@b.c"; "secret"] s).
    reflexivity.
  - apply (rejected_action_leaves_state gateway [] s). reflexivity.
  - apply (rejected_action_leaves_state gateway ["id"] s). reflexivity.
  - apply (rejected_action_leaves_state gateway ["id"] s). reflexivity.
  - apply (rejected_action_leaves_state gateway ["url"] s). reflexivity.
Defined.

(** ** The line items *)

Import useShopifyProductVariantWithContext.

Lemma map_iteratee (variantId : ID) (newLineItem : LineItem)
      (lineItems : list LineItem) (duplicateResolved : bool) :
  Lodash.map (iteratee variantId newLineItem) lineItems duplicateResolved =
  (List.map (merged variantId newLineItem) lineItems,
   duplicateResolved || existsb (duplicates variantId) lineItems).
Proof.
  revert duplicateResolved.
  induction lineItems as [| lineItem rest IH]; intros duplicateResolved; simpl.
  - now rewrite orb_false_r.
  - unfold iteratee at 1, merged at 1, duplicates at 1 2.
    destruct (Lodash.includes (Lodash.valueOfID variantId) lineItem);
      rewrite IH; simpl.
    + now rewrite orb_true_r.
    + reflexivity.
Qed.

Lemma map_merged_no_duplicate (variantId : ID) (newLineItem : LineItem)
      (lineItems : list LineItem) :
  existsb (duplicates variantId) lineItems = false ->
  List.map (merged variantId newLineItem) lineItems = lineItems.
Proof.
  induction lineItems as [| lineItem rest IH]; simpl; [reflexivity |].
  intros H. apply orb_false_iff in H as [H1 H2].
  unfold merged at 1. rewrite H1, (IH H2). reflexivity.
Qed.

Lemma nextLineItems_eq (variantId : ID) (lineItems : list LineItem)
      (quantity : option Z) (customAttributes : option (list Attribute)) :
  let newLineItem := newLineItemOf (Build_Addition variantId quantity customAttributes) in
  nextLineItems variantId lineItems quantity customAttributes =
  if existsb (duplicates variantId) lineItems
  then List.map (merged variantId newLineItem) lineItems
  else newLineItem :: lineItems.
Proof.
  intros newLineItem. unfold nextLineItems.
  fold (newLineItemOf (Build_Addition variantId quantity customAttributes)).
  fold newLineItem.
  rewrite map_iteratee. simpl.
  destruct (existsb (duplicates variantId) lineItems) eqn:E; [reflexivity |].
  now rewrite (map_merged_no_duplicate _ _ _ E).
Qed.

Lemma run_addToCheckout (gateway : Gateway) (variantId : ID)
      (lineItems : list LineItem) (quantity : option Z)
      (customAttributes : option (list Attribute)) (s : Store) :
  let next := nextLineItems variantId lineItems quantity customAttributes in
  run (addToCheckout gateway variantId lineItems quantity customAttributes) s =
  inr (tt, persisting (withLineItems next (persisted s))
                      (requested (CheckoutLineItemsReplace next) s)).
Proof. reflexivity. Qed.

(** C4.  [addToCheckout] first sends the sequence it computed to the
    line-items-replace operation, then dispatches that sequence; whatever
    the gateway answers, with or without data, it completes with the
    persisted line items equal to the computed sequence, and the rest of
    the persisted state as it was. *)
Theorem addToCheckout_stores_whatever_the_answer
        (gateway : Gateway) (variantId : ID) (lineItems : list LineItem)
        (quantity : option Z) (customAttributes : option (list Attribute))
        (s : Store) :
  let next := nextLineItems variantId lineItems quantity customAttributes in
  exists s',
    run (addToCheckout gateway variantId lineItems quantity customAttributes) s
      = inr (tt, s') /\
    requests s' = (requests s ++ [CheckoutLineItemsReplace next])%list /\
    checkoutLineItems (persisted s') = next /\
    persisted s' = withLineItems next (persisted s) /\
    sessionIsNew s' = sessionIsNew s.
Proof.
  intros next. eexists. split; [apply run_addToCheckout |].
  repeat split.
Qed.

(** The dispatch follows the remote call: it runs in the store that has
    the request in its log. *)
Remark addToCheckout_dispatches_after_request
       (gateway : Gateway) (variantId : ID) (lineItems : list LineItem)
       (quantity : option Z) (customAttributes : option (list Attribute))
       (s : Store) :
  let next := nextLineItems variantId lineItems quantity customAttributes in
  run (addToCheckout gateway variantId lineItems quantity customAttributes) s =
  run (dispatch {| type := "SET_CHECKOUT_LINE_ITEMS"; payload := next |})
      (requested (CheckoutLineItemsReplace next) s).
Proof. reflexivity. Qed.

Lemma run_perform_AddToCheckout (gateway : Gateway) (variantId : ID)
      (quantity : option Z) (customAttributes : option (list Attribute))
      (s : Store) :
  let next := nextLineItems variantId (checkoutLineItems (persisted s))
                            quantity customAttributes in
  run (perform gateway (AddToCheckout variantId quantity customAttributes)) s =
  inr (tt, persisting (withLineItems next (persisted s))
                      (requested (CheckoutLineItemsReplace next) s)).
Proof. reflexivity. Qed.

Lemma after_cons (gateway : Gateway) (call : Call) (rest : Lifetime) (s : Store) :
  after ((gateway, call) :: rest) s =
  match run (perform gateway call) s with
  | inr (_, s') => after rest s'
  | inl _ => None
  end.
Proof.
  unfold after. cbn [play]. rewrite run_bind.
  destruct (run (perform gateway call) s) as [e | [[] s']]; reflexivity.
Qed.

Lemma after_nil (s : Store) : after [] s = Some s.
Proof. reflexivity. Qed.

Lemma sameValueZero_valueOfID (x y : ID) :
  Js.sameValueZero (Lodash.valueOfID x) (Lodash.valueOfID y) = true <-> x = y.
Proof.
  destruct x as [a | a], y as [b | b]; simpl.
  - rewrite String.eqb_eq. split; congruence.
  - split; discriminate.
  - split; discriminate.
  - rewrite Z.eqb_eq. split; congruence.
Qed.

(** The test of [addToCheckout] on a line item: the variant id is one of
    the values of the line item, which it is when it is its [variantId] and
    also when it is an integer equal to its [quantity]. *)
Lemma duplicates_iff (variantId' : ID) (lineItem : LineItem) :
  duplicates variantId' lineItem = true <->
  variantId lineItem = variantId' \/ variantId' = IDInt (quantity lineItem).
Proof.
  unfold duplicates, Lodash.includes, Lodash.values.
  cbn [existsb]. rewrite orb_false_r, !orb_true_iff.
  change (Js.Number (quantity lineItem))
    with (Lodash.valueOfID (IDInt (quantity lineItem))).
  rewrite !sameValueZero_valueOfID.
  split.
  - intros [H | [H | H]]; auto.
    destruct variantId', (customAttributes lineItem); discriminate.
  - intros [H | H]; auto.
Qed.

Lemma duplicates_own (variant : ID) (q : Z) (a : option (list Attribute)) :
  duplicates variant
    {| variantId := variant; quantity := q; customAttributes := a |} = true.
Proof. apply duplicates_iff. now left. Qed.


Lemma merged_duplicate (variant : ID) (newLineItem lineItem : LineItem) :
  duplicates variant lineItem = true ->
  merged variant newLineItem lineItem =
  {| variantId := variantId newLineItem;
     quantity := (quantity lineItem + quantity newLineItem)%Z;
     customAttributes :=
       Lodash.mergeAttributes (customAttributes lineItem)
                              (customAttributes newLineItem) |}.
Proof. intros H. unfold merged. rewrite H. reflexivity. Qed.




(** A callback kept from an earlier render closes over the sequence of that
    render: called after a first call has completed, it computes from the
    sequence as it was before that call. *)
Remark addToCheckout_of_one_render
       (gateway1 gateway2 : Gateway) (variant : ID) (q1 q2 : option Z)
       (attributes1 attributes2 : option (list Attribute)) (s : Store) :
  let lineItems := checkoutLineItems (persisted s) in
  exists s',
    run (addToCheckout gateway1 variant lineItems q1 attributes1 ;;
         addToCheckout gateway2 variant lineItems q2 attributes2) s
      = inr (tt, s') /\
    checkoutLineItems (persisted s') =
      nextLineItems variant lineItems q2 attributes2.
Proof.
  intros lineItems. eexists. split.
  - rewrite run_bind, run_addToCheckout, run_addToCheckout. reflexivity.
  - reflexivity.
Qed.

(** Three calls in a row, for the variants v1, v2 and v1 again. *)
Example addToCheckout_three_calls :
  let gateway := granting "token" "expiry" "checkout" in
  option_map (fun s => checkoutLineItems (persisted s))
    (after [ (gateway, AddToCheckout (IDString "v1") (Some 2%Z) None);
             (gateway, AddToCheckout (IDString "v2") (Some 1%Z) None);
             (gateway, AddToCheckout (IDString "v1") (Some 3%Z) None) ]
           freshStore) =
  Some [ {| variantId := IDString "v2"; quantity := 1;
            customAttributes := None |};
         {| variantId := IDString "v1"; quantity := 5;
            customAttributes := None |} ].
Proof. reflexivity. Qed.

(** C2.  The duplicate test of [addToCheckout] looks for the variant id
    among all the values of a line item: with the variant id [2], a line
    item of another variant whose quantity is [2] is taken for a duplicate
    and merged into, and its own variant is gone from the sequence. *)
Theorem addToCheckout_merges_into_other_variant :
  let other :=
    {| variantId := IDString "A"; quantity := 2; customAttributes := None |} in
  variantId other <> IDInt 2 /\
  duplicates (IDInt 2) other = true /\
  nextLineItems (IDInt 2) [other] None None =
    [ {| variantId := IDInt 2; quantity := 3; customAttributes := None |} ].
Proof.
  intros other. split; [discriminate |]. split; reflexivity.
Qed.

(** With a string for variant id, the test is the equality of the
    [variantId] fields. *)
Lemma duplicates_string (x : string) (lineItem : LineItem) :
  duplicates (IDString x) lineItem = true <-> variantId lineItem = IDString x.
Proof.
  rewrite duplicates_iff. split; [| now left].
  intros [H | H]; [exact H | discriminate].
Qed.

(** C3.  Two calls of [addToCheckout] with distinct variant ids, from the
    empty sequence: the second id is the integer [2], the quantity of the
    first entry, so the second call merges into the first entry and the
    sequence has one entry, not two. *)
Theorem addToCheckout_distinct_variants_one_entry :
  let gateway := granting "token" "expiry" "checkout" in
  let calls :=
    [ (gateway, {| added := IDString "A"; howMany := Some 2%Z;
                   attributes := None |});
      (gateway, {| added := IDInt 2; howMany := None; attributes := None |}) ] in
  NoDup (List.map (fun c => added (snd c)) calls) /\
  checkoutLineItems (persisted freshStore) = [] /\
  exists s',
    after (additions calls) freshStore = Some s' /\
    checkoutLineItems (persisted s') =
      [ {| variantId := IDInt 2; quantity := 3; customAttributes := None |} ] /\
    List.length (checkoutLineItems (persisted s')) <> List.length calls.
Proof.
  intros gateway calls. split; [| split; [reflexivity |]].
  - repeat constructor; simpl; intuition discriminate.
  - eexists. split; [reflexivity |]. split; [reflexivity | discriminate].
Qed.

(** When the variant ids are distinct strings, none of them in the sequence
    at the start, every call prepends its candidate: the sequence grows by
    one entry per call, newest first, in front of the entries it had. *)
Lemma addToCheckout_distinct_strings_prepend
      (calls : list (Gateway * Addition)) (s : Store) :
  NoDup (List.map (fun c => added (snd c)) calls) ->
  Forall (fun c => isString (added (snd c)) = true) calls ->
  (forall c, In c calls ->
     ~ In (added (snd c))
          (List.map variantId (checkoutLineItems (persisted s)))) ->
  exists s',
    after (additions calls) s = Some s' /\
    checkoutLineItems (persisted s') =
      (rev (List.map (fun c => newLineItemOf (snd c)) calls)
       ++ checkoutLineItems (persisted s))%list.
Proof.
  revert s. induction calls as [| [gateway a] rest IH]; intros s Hdistinct Hstrings Hfresh.
  - exists s. split; reflexivity.
  - inversion Hdistinct as [| x l Hnotin Hrest]; subst.
    inversion Hstrings as [| x l Hstring Hstrings']; subst.
    simpl in Hnotin, Hstring.
    assert (Hnew : existsb (duplicates (added a))
                     (checkoutLineItems (persisted s)) = false).
    { destruct (existsb (duplicates (added a))
                  (checkoutLineItems (persisted s))) eqn:E; [| reflexivity].
      apply existsb_exists in E as (lineItem & Hin & Hdup).
      destruct (added a) as [x | n] eqn:Ea; [| discriminate].
      apply duplicates_string in Hdup.
      elim (Hfresh (gateway, a) (or_introl eq_refl)).
      simpl. rewrite Ea, <- Hdup. now apply in_map. }
    cbn [additions List.map]. rewrite after_cons, run_perform_AddToCheckout.
    rewrite nextLineItems_eq, Hnew.
    destruct (IH (persisting
                    (withLineItems
                       (newLineItemOf a :: checkoutLineItems (persisted s))
                       (persisted s))
                    (requested
                       (CheckoutLineItemsReplace
                          (newLineItemOf a :: checkoutLineItems (persisted s)))
                       s)))
      as (s' & Hafter & Hitems); try assumption.
    + intros c Hc [Heq | Hin].
      * apply Hnotin. simpl in Heq. rewrite Heq.
        now apply (in_map (fun c => added (snd c))).
      * apply (Hfresh c (or_intror Hc)). exact Hin.
    + exists s'. destruct a as [v q attrs]. split; [exact Hafter |].
      rewrite Hitems. cbn [List.map snd rev persisted persisting withLineItems
                             checkoutLineItems].
      now rewrite <- app_assoc.
Qed.

(** ** The effect that creates the checkout *)

Lemma run_perform_CreateEffect (gateway : Gateway) (autoCreate : bool) (s : Store) :
  run (perform gateway (CreateEffect autoCreate)) s =
  if useShopifyCheckoutWithContext.createsAutomatically
       autoCreate (checkoutId (persisted s))
  then
    match run (useShopifyCheckoutWithContext.createCheckoutWithContext
                 gateway []) s with
    | inr (_, s') => inr (tt, s')
    | inl e => inl e
    end
  else inr (tt, s).
Proof.
  change (run (perform gateway (CreateEffect autoCreate)) s)
    with (run (useShopifyCheckoutWithContext.effect
                 gateway autoCreate (checkoutId (persisted s))) s).
  unfold useShopifyCheckoutWithContext.effect.
  destruct (useShopifyCheckoutWithContext.createsAutomatically _ _).
  - rewrite run_bind.
    destruct (run _ s) as [e | [result s']]; reflexivity.
  - reflexivity.
Qed.




(** ** The effect that renews the token *)

Lemma run_discard {A : Type} (c : M A) (s : Store) :
  run (_ <- c ;; ret tt) s =
  match run c s with
  | inr (_, s') => inr (tt, s')
  | inl e => inl e
  end.
Proof.
  rewrite run_bind. destruct (run c s) as [e | [a s']]; reflexivity.
Qed.

Lemma run_perform_RenewEffect (gateway : Gateway) (s : Store) :
  let token := customerAccessToken (persisted s) in
  run (perform gateway RenewEffect) s =
  if useShopifyCustomerAccessTokenWithContext.renewsAutomatically
       token (sessionIsNew s)
  then
    match run (renewToken gateway token) s with
    | inr (_, s') => inr (tt, {| persisted := persisted s';
                                sessionIsNew := false;
                                requests := requests s' |})
    | inl e => inl e
    end
  else inr (tt, s).
Proof.
  intros token.
  change (run (perform gateway RenewEffect) s)
    with (run (effect gateway token (sessionIsNew s)) s).
  unfold effect.
  destruct (useShopifyCustomerAccessTokenWithContext.renewsAutomatically _ _).
  - unfold renewTokenAutomatically. rewrite run_bind.
    destruct (run (renewToken gateway token) s) as [e | [result s']];
      reflexivity.
  - reflexivity.
Qed.

(** [perform] of an action whose result the lifetime discards. *)
Ltac discarding action :=
  match goal with
  | |- context [run (perform ?gateway ?call) ?s] =>
      change (run (perform gateway call) s)
        with (run (_ <- action ;; ret tt) s);
      rewrite run_discard
  end.

(** The three actions of [useShopifyCustomerWithContext]. *)
Ltac customer_action :=
  unfold useShopifyCustomerWithContext.activateCustomer,
    useShopifyCustomerWithContext.resetCustomer,
    useShopifyCustomerWithContext.resetCustomerByUrl,
    Hooks.activateCustomer, Hooks.resetCustomer, Hooks.resetCustomerByUrl;
  rewrite run_customer_action.







(** * Further properties *)

(** ** What every call does *)

Ltac outcome :=
  eexists; eexists; split; [reflexivity |];
  repeat match goal with
         | |- context [data ?result] => destruct (data result)
         end;
  cbn;
  (split; [first [ reflexivity
                 | symmetry; apply app_nil_r
                 | rewrite <- app_assoc; reflexivity ] |]);
  (split; [constructor |]);
  first [ discriminate | intros _; auto ].

Lemma perform_change (gateway : Gateway) (call : Call) (s : Store) :
  exists (s' : Store) (l : list Request),
    run (perform gateway call) s = inr (tt, s') /\
    requests s' = (requests s ++ l)%list /\
    Change (persisted s) (persisted s') /\
    (isAddToCheckout call = false ->
       checkoutLineItems (persisted s') = checkoutLineItems (persisted s) \/
       persisted s' = initialState).
Proof.
  destruct call as [| autoCreate | args | | | args | variant q attrs
                    | args | args | args];
    cbn [isAddToCheckout].
  - rewrite run_perform_RenewEffect.
    destruct (useShopifyCustomerAccessTokenWithContext.renewsAutomatically _ _).
    + rewrite run_renewToken.
      destruct (data (customerAccessTokenRenew gateway _));
        [| rewrite run_signOut]; outcome.
    + outcome.
  - rewrite run_perform_CreateEffect.
    destruct (useShopifyCheckoutWithContext.createsAutomatically _ _).
    + rewrite run_createCheckoutWithContext. outcome.
    + outcome.
  - discarding (signIn gateway args). rewrite run_signIn. outcome.
  - discarding (renewToken gateway (customerAccessToken (persisted s))).
    rewrite run_renewToken.
    destruct (data (customerAccessTokenRenew gateway _));
      [| rewrite run_signOut]; outcome.
  - change (run (perform gateway SignOut) s)
      with (run (signOut gateway (customerAccessToken (persisted s))) s).
    rewrite run_signOut. outcome.
  - discarding (useShopifyCheckoutWithContext.createCheckoutWithContext
                  gateway args).
    rewrite run_createCheckoutWithContext. outcome.
  - rewrite run_perform_AddToCheckout. outcome.
  - discarding (useShopifyCustomerWithContext.activateCustomer gateway args).
    customer_action. outcome.
  - discarding (useShopifyCustomerWithContext.resetCustomer gateway args).
    customer_action. outcome.
  - discarding (useShopifyCustomerWithContext.resetCustomerByUrl gateway args).
    customer_action. outcome.
Qed.

(** No sequence of effects and actions throws: the hooks dispatch actions
    that the reducer supports.  The requests made before stay in the log,
    in their order, in front of those the sequence adds. *)
Theorem lifetime_completes (calls : Lifetime) (s : Store) :
  exists (s' : Store) (l : list Request),
    after calls s = Some s' /\
    run (play calls) s = inr (tt, s') /\
    requests s' = (requests s ++ l)%list.
Proof.
  revert s. induction calls as [| [gateway call] rest IH]; intros s.
  - exists s, []. repeat split. now rewrite app_nil_r.
  - destruct (perform_change gateway call s) as (s1 & l1 & Hrun & Hlog & _).
    destruct (IH s1) as (s' & l & Hafter & Hplay & Hlog').
    exists s', (l1 ++ l)%list. split; [| split].
    + now rewrite after_cons, Hrun.
    + cbn [play]. now rewrite run_bind, Hrun.
    + now rewrite Hlog', Hlog, app_assoc.
Qed.

(** What holds of the persisted state at the start and is kept by every
    change holds after every sequence of calls. *)
Lemma after_invariant (P : PersistedState -> Prop) :
  (forall state state', Change state state' -> P state -> P state') ->
  forall (calls : Lifetime) (s s' : Store),
    after calls s = Some s' -> P (persisted s) -> P (persisted s').
Proof.
  intros Hkept calls.
  induction calls as [| [gateway call] rest IH]; intros s s' Hafter HP.
  - rewrite after_nil in Hafter. now inversion Hafter; subst.
  - destruct (perform_change gateway call s) as (s1 & l1 & Hrun & _ & Hchange & _).
    rewrite after_cons, Hrun in Hafter.
    apply (IH s1 s' Hafter). now apply (Hkept _ _ Hchange).
Qed.

(** The token and its expiry are set together and cleared together: if both
    are set or both are [null] at the start, they are so after every
    sequence of effects and actions. *)
Theorem token_and_expiry_stay_paired (calls : Lifetime) (s s' : Store) :
  paired (persisted s) = true ->
  after calls s = Some s' ->
  paired (persisted s') = true.
Proof.
  intros Hpaired Hafter.
  apply (after_invariant (fun state => paired state = true)) with calls s;
    try assumption.
  intros state state' [| | d | checkout | lineItems]; auto.
Qed.

Lemma token_and_expiry_stay_paired_witness :
  paired (persisted freshStore) = true /\
  exists s',
    after [ (granting "token" "expiry" "checkout", SignIn ["a@b.c"; "secret"]);
            (rejecting [], RenewToken);
            (granting "token2" "expiry2" "checkout", ResetCustomer ["id"]) ]
          freshStore = Some s' /\
    paired (persisted s') = true.
Proof.
  split; [reflexivity |].
  eexists. split; [reflexivity |].
  apply (token_and_expiry_stay_paired
           [ (granting "token" "expiry" "checkout", SignIn ["a@b.c"; "secret"]);
             (rejecting [], RenewToken);
             (granting "token2" "expiry2" "checkout", ResetCustomer ["id"]) ]
           freshStore); reflexivity.
Defined.

(** The line items are changed by [addToCheckout] and emptied by a reset,
    by nothing else: after a sequence of calls with no [addToCheckout]
    among them, the line items are those of the start, or none. *)
Theorem line_items_kept_or_emptied (calls : Lifetime) (s s' : Store) :
  forallb (fun c => negb (isAddToCheckout (snd c))) calls = true ->
  after calls s = Some s' ->
  checkoutLineItems (persisted s') = checkoutLineItems (persisted s) \/
  checkoutLineItems (persisted s') = [].
Proof.
  revert s. induction calls as [| [gateway call] rest IH]; intros s Hcalls Hafter.
  - rewrite after_nil in Hafter. inversion Hafter; subst. now left.
  - cbn [forallb snd] in Hcalls.
    apply andb_true_iff in Hcalls as [Hcall Hrest].
    apply negb_true_iff in Hcall.
    destruct (perform_change gateway call s)
      as (s1 & l1 & Hrun & _ & _ & Hitems).
    rewrite after_cons, Hrun in Hafter.
    destruct (IH s1 Hrest Hafter) as [H | H]; [| now right].
    rewrite H.
    destruct (Hitems Hcall) as [H1 | H1]; [now left |].
    right. now rewrite H1.
Qed.

Lemma line_items_kept_or_emptied_witness :
  let item := {| variantId := IDString "v1"; quantity := 2;
                 customAttributes := None |} in
  let s := {| persisted := withLineItems [item] initialState;
              sessionIsNew := true; requests := [] |} in
  exists s',
    after [ (granting "token" "expiry" "checkout", CreateEffect true);
            (granting "token" "expiry" "checkout", SignIn []) ] s = Some s' /\
    (checkoutLineItems (persisted s') = [item] \/
     checkoutLineItems (persisted s') = []).
Proof.
  intros item s. eexists. split; [reflexivity |].
  apply (line_items_kept_or_emptied
           [ (granting "token" "expiry" "checkout", CreateEffect true);
             (granting "token" "expiry" "checkout", SignIn []) ] s);
    reflexivity.
Defined.

(** ** The sequence that [addToCheckout] computes *)

(** [addToCheckout] prepends its candidate exactly when no entry has the
    variant id for [variantId] and, the id being an integer, none has it for
    [quantity]; [customAttributes] never make a duplicate. *)
Theorem addToCheckout_prepends_iff (variant : ID) (lineItems : list LineItem)
        (q : option Z) (a : option (list Attribute)) :
  let candidate := newLineItemOf (Build_Addition variant q a) in
  (nextLineItems variant lineItems q a = candidate :: lineItems <->
   forall lineItem, In lineItem lineItems ->
     variantId lineItem <> variant /\ variant <> IDInt (quantity lineItem)) /\
  (forall lineItem,
     duplicates variant lineItem = true <->
     variantId lineItem = variant \/ variant = IDInt (quantity lineItem)).
Proof.
  intros candidate. split; [| intros lineItem; apply duplicates_iff].
  rewrite nextLineItems_eq. fold candidate.
  destruct (existsb (duplicates variant) lineItems) eqn:E.
  - split.
    + intros H. apply (f_equal (@List.length LineItem)) in H.
      rewrite length_map in H. simpl in H. lia.
    + intros H. apply existsb_exists in E as (lineItem & Hin & Hdup).
      apply duplicates_iff in Hdup. destruct (H lineItem Hin) as [H1 H2].
      tauto.
  - split; [| reflexivity].
    intros _ lineItem Hin.
    assert (Hdup : duplicates variant lineItem = false).
    { destruct (duplicates variant lineItem) eqn:El; [| reflexivity].
      rewrite <- E. symmetry. apply existsb_exists. eauto. }
    split; intros H;
      assert (Htrue : duplicates variant lineItem = true)
        by (apply duplicates_iff; auto);
      congruence.
Qed.

Lemma filter_merged (variant : ID) (newLineItem : LineItem)
      (lineItems : list LineItem) :
  variantId newLineItem = variant ->
  filter (fun lineItem => negb (duplicates variant lineItem))
         (List.map (merged variant newLineItem) lineItems) =
  filter (fun lineItem => negb (duplicates variant lineItem)) lineItems.
Proof.
  intros Hid. induction lineItems as [| lineItem rest IH]; [reflexivity |].
  cbn [List.map filter].
  destruct (duplicates variant lineItem) eqn:E.
  - rewrite (merged_duplicate _ _ _ E).
    assert (Hdup : duplicates variant
                     {| variantId := variantId newLineItem;
                        quantity := (quantity lineItem + quantity newLineItem)%Z;
                        customAttributes :=
                          Lodash.mergeAttributes (customAttributes lineItem)
                            (customAttributes newLineItem) |} = true)
      by (apply duplicates_iff; left; exact Hid).
    rewrite Hdup. exact IH.
  - assert (Hsame : merged variant newLineItem lineItem = lineItem)
      by (unfold merged; now rewrite E).
    rewrite Hsame, E. cbn [negb]. now rewrite IH.
Qed.

(** [addToCheckout] removes no entry and moves none: the sequence keeps its
    length when a duplicate is found and is one longer when none is, and
    the entries that are not duplicates are the same, in the same order. *)
Theorem addToCheckout_keeps_other_entries
        (variant : ID) (lineItems : list LineItem)
        (q : option Z) (a : option (list Attribute)) :
  let next := nextLineItems variant lineItems q a in
  List.length next =
    (List.length lineItems
     + if existsb (duplicates variant) lineItems then 0 else 1)%nat /\
  filter (fun lineItem => negb (duplicates variant lineItem)) next =
  filter (fun lineItem => negb (duplicates variant lineItem)) lineItems.
Proof.
  intros next. unfold next. rewrite nextLineItems_eq.
  destruct (existsb (duplicates variant) lineItems) eqn:E.
  - split; [rewrite length_map; lia |].
    now apply filter_merged.
  - split; [simpl; lia |].
    cbn [filter]. unfold newLineItemOf at 1. cbn [added howMany attributes].
    now rewrite duplicates_own.
Qed.












(** Two hooks of one render, for two variants that are not in the sequence:
    both callbacks close over the sequence of that render, so after the two
    calls, awaited one after the other, the sequence holds the candidate of
    the second and not that of the first, which only the gateway was
    sent. *)
Theorem addToCheckout_of_one_render_loses_first
        (gateway1 gateway2 : Gateway) (variant1 variant2 : ID)
        (q1 q2 : option Z) (attributes1 attributes2 : option (list Attribute))
        (s : Store) :
  let lineItems := checkoutLineItems (persisted s) in
  let candidate1 := newLineItemOf (Build_Addition variant1 q1 attributes1) in
  let candidate2 := newLineItemOf (Build_Addition variant2 q2 attributes2) in
  existsb (duplicates variant1) lineItems = false ->
  existsb (duplicates variant2) lineItems = false ->
  duplicates variant2 candidate1 = false ->
  exists s',
    run (addToCheckout gateway1 variant1 lineItems q1 attributes1 ;;
         addToCheckout gateway2 variant2 lineItems q2 attributes2) s
      = inr (tt, s') /\
    checkoutLineItems (persisted s') = candidate2 :: lineItems /\
    ~ In candidate1 (checkoutLineItems (persisted s')) /\
    requests s' =
      (requests s ++ [ CheckoutLineItemsReplace (candidate1 :: lineItems);
                       CheckoutLineItemsReplace (candidate2 :: lineItems) ])%list.
Proof.
  intros lineItems candidate1 candidate2 H1 H2 H12.
  eexists. split.
  - rewrite run_bind, run_addToCheckout, run_addToCheckout. reflexivity.
  - cbn [persisted persisting withLineItems checkoutLineItems requested requests].
    rewrite !nextLineItems_eq. fold lineItems. rewrite H1, H2.
    fold candidate1. fold candidate2.
    split; [reflexivity |]. split; [| now rewrite <- app_assoc].
    intros [Heq | Hin].
    + assert (Hdup : duplicates variant2 candidate2 = true)
        by apply duplicates_own.
      congruence.
    + assert (Hdup : existsb (duplicates variant1) lineItems = true).
      { apply existsb_exists. exists candidate1. split; [exact Hin |].
        apply duplicates_own. }
      congruence.
Qed.

Lemma addToCheckout_of_one_render_loses_first_witness :
  let gateway := granting "token" "expiry" "checkout" in
  exists s',
    run (addToCheckout gateway (IDString "v1") [] (Some 2%Z) None ;;
         addToCheckout gateway (IDString "v2") [] None None) freshStore
      = inr (tt, s') /\
    checkoutLineItems (persisted s') =
      [ {| variantId := IDString "v2"; quantity := 1;
           customAttributes := None |} ].
Proof.
  intros gateway.
  destruct (addToCheckout_of_one_render_loses_first
              gateway gateway (IDString "v1") (IDString "v2")
              (Some 2%Z) None None None freshStore eq_refl eq_refl eq_refl)
    as (s' & Hrun & Hitems & _).
  exists s'. split; [exact Hrun | exact Hitems].
Defined.

Lemma addToCheckout_distinct_strings_prepend_witness :
  let gateway := granting "token" "expiry" "checkout" in
  let add (x : string) (n : Z) :=
    (gateway, {| added := IDString x; howMany := Some n; attributes := None |}) in
  exists s',
    after (additions [add "v1" 2%Z; add "v2" 1%Z; add "v3" 4%Z]) freshStore
      = Some s' /\
    List.map variantId (checkoutLineItems (persisted s')) =
      [IDString "v3"; IDString "v2"; IDString "v1"].
Proof.
  intros gateway add.
  destruct (addToCheckout_distinct_strings_prepend
              [add "v1" 2%Z; add "v2" 1%Z; add "v3" 4%Z] freshStore)
    as (s' & Hafter & Hitems).
  - repeat constructor; simpl; intuition discriminate.
  - repeat constructor.
  - intros c _ [].
  - exists s'. split; [exact Hafter |]. now rewrite Hitems.
Defined.

(** ** The custom attributes of a merged entry *)

Lemma overlay_assoc (a b c : list Attribute) :
  (c ++ skipn (List.length c) (b ++ skipn (List.length b) a))%list =
  ((c ++ skipn (List.length c) b)
   ++ skipn (List.length (c ++ skipn (List.length c) b)) a)%list.
Proof.
  rewrite skipn_app, skipn_skipn, <- app_assoc. do 2 f_equal.
  rewrite length_app, length_skipn. f_equal. lia.
Qed.

(** Over the calls for one variant the custom attributes compose: a call
    without attributes keeps those of the entry, an entry without any takes
    those of the call, merging is associative and merging a list with
    itself gives it back.  When both have attributes, those of the call
    come first, as they are, followed by what the entry has beyond their
    number. *)
Theorem customAttributes_compose (a b c : option (list Attribute)) :
  Lodash.mergeAttributes a None = a /\
  Lodash.mergeAttributes None b = b /\
  Lodash.mergeAttributes (Lodash.mergeAttributes a b) c =
    Lodash.mergeAttributes a (Lodash.mergeAttributes b c) /\
  Lodash.mergeAttributes a a = a /\
  (forall obj src : list Attribute,
     exists l,
       Lodash.mergeAttributes (Some obj) (Some src) = Some l /\
       firstn (List.length src) l = src /\
       skipn (List.length src) l = skipn (List.length src) obj /\
       List.length l = Nat.max (List.length obj) (List.length src)).
Proof.
  split; [reflexivity |]. split; [| split; [| split]].
  - destruct b as [b |]; [| reflexivity]. cbn.
    now rewrite skipn_nil, app_nil_r.
  - destruct c as [c |]; [| reflexivity].
    destruct b as [b |];
      [| cbn; now rewrite skipn_nil, app_nil_r].
    destruct a as [a |]; cbn; f_equal.
    + apply overlay_assoc.
    + rewrite !skipn_nil, !app_nil_r. reflexivity.
  - destruct a as [a |]; [| reflexivity]. cbn.
    now rewrite skipn_all, app_nil_r.
  - intros obj src. eexists. split; [reflexivity |]. split; [| split].
    + rewrite firstn_app, firstn_all, Nat.sub_diag. cbn. apply app_nil_r.
    + rewrite skipn_app, skipn_all, Nat.sub_diag. reflexivity.
    + rewrite length_app, length_skipn. lia.
Qed.

(** ** The reducer under a series of dispatches *)

Lemma reduce_supported (actions : list Action) (state : PersistedState) :
  Forall (fun action => In (type action) supportedTypes) actions ->
  exists state', reduce state actions = inr state'.
Proof.
  revert state. induction actions as [| action rest IH]; intros state Hall.
  - now exists state.
  - inversion Hall as [| x l Hin Hrest]; subst.
    apply case_of_supported in Hin.
    destruct (reducer_case state action Hin) as (state1 & Hstep).
    cbn [reduce]. rewrite Hstep. now apply IH.
Qed.

Lemma reduce_app (actions more : list Action) (state : PersistedState) :
  reduce state (actions ++ more) =
  match reduce state actions with
  | inr state' => reduce state' more
  | inl e => inl e
  end.
Proof.
  revert state. induction actions as [| action rest IH]; intros state;
    [reflexivity |].
  cbn [reduce app]. destruct (reducer state action); [reflexivity | apply IH].
Qed.

(** Dispatches compose by field.  Of two dispatches of one type the second
    decides; dispatches of different types other than [RESET] commute; a
    [RESET] after any supported dispatches gives the initial state; and an
    unsupported action anywhere in a series makes the series throw. *)
Theorem reducer_composes
        (state : PersistedState) (d d' : TokenData) (c c' : string)
        (l l' : list LineItem) :
  reduce state [setCustomerAccessToken d; setCustomerAccessToken d'] =
    reduce state [setCustomerAccessToken d'] /\
  reduce state [setCheckoutId c; setCheckoutId c'] =
    reduce state [setCheckoutId c'] /\
  reduce state [setCheckoutLineItems l; setCheckoutLineItems l'] =
    reduce state [setCheckoutLineItems l'] /\
  reduce state [setCustomerAccessToken d; setCheckoutId c] =
    reduce state [setCheckoutId c; setCustomerAccessToken d] /\
  reduce state [setCustomerAccessToken d; setCheckoutLineItems l] =
    reduce state [setCheckoutLineItems l; setCustomerAccessToken d] /\
  reduce state [setCheckoutId c; setCheckoutLineItems l] =
    reduce state [setCheckoutLineItems l; setCheckoutId c] /\
  (forall actions,
     Forall (fun action => In (type action) supportedTypes) actions ->
     reduce state (actions ++ [reset]) = inr initialState) /\
  (forall actions action more,
     Forall (fun action => In (type action) supportedTypes) actions ->
     ~ In (type action) supportedTypes ->
     reduce state (actions ++ action :: more) = inl invalid_action_type).
Proof.
  repeat (split; [reflexivity |]). split.
  - intros actions Hall. rewrite reduce_app.
    destruct (reduce_supported actions state Hall) as (state' & ->).
    reflexivity.
  - intros actions action more Hall Hnot. rewrite reduce_app.
    destruct (reduce_supported actions state Hall) as (state' & ->).
    cbn [reduce]. rewrite reducer_default; [reflexivity |].
    destruct (case_of (type action)) eqn:E; [| reflexivity].
    elim Hnot. apply case_of_supported. rewrite E. discriminate.
Qed.

Lemma reducer_composes_witness :
  let d := {| accessToken := "token"; expiresAt := "expiry" |} in
  reduce initialState
    ([setCustomerAccessToken d; setCheckoutId "checkout"] ++ [reset])
    = inr initialState /\
  reduce initialState
    ([setCheckoutId "checkout"]
     ++ {| type := "CLEAR"; payload := tt |} :: [setCustomerAccessToken d])
    = inl invalid_action_type.
Proof.
  intros d.
  destruct (reducer_composes initialState d d "" "" [] [])
    as (_ & _ & _ & _ & _ & _ & Hreset & Hthrow).
  split.
  - apply Hreset. repeat constructor; simpl; tauto.
  - apply Hthrow.
    + repeat constructor; simpl; tauto.
    + simpl. intros [H | [H | [H | [H | []]]]]; discriminate.
Defined.

(** ** Signing in, signing out and the effects *)






Lemma run_perform_SignOut (gateway : Gateway) (s : Store) :
  run (perform gateway SignOut) s =
  inr (tt, {| persisted := initialState;
              sessionIsNew := true;
              requests := (requests s
                           ++ deletion (customerAccessToken (persisted s)))%list |}).
Proof.
  change (run (perform gateway SignOut) s)
    with (run (signOut gateway (customerAccessToken (persisted s))) s).
  apply run_signOut.
Qed.

(** [signOut] clears the checkout id with the rest, so with auto-create the
    effect that runs next asks for a new checkout, whatever was persisted
    before; the line items stay empty. *)
Theorem signOut_then_checkout_created_again
        (gateway gateway' : Gateway) (s : Store) :
  exists s',
    after [(gateway, SignOut); (gateway', CreateEffect true)] s = Some s' /\
    requests s' =
      (requests s ++ deletion (customerAccessToken (persisted s))
       ++ [CheckoutCreate []])%list /\
    sessionIsNew s' = true /\
    checkoutLineItems (persisted s') = [] /\
    customerAccessToken (persisted s') = None /\
    checkoutId (persisted s') =
      option_map id (data (checkoutCreate gateway' [])).
Proof.
  eexists. split.
  - rewrite after_cons, run_perform_SignOut, after_cons,
      run_perform_CreateEffect.
    cbn [persisted checkoutId initialState
         useShopifyCheckoutWithContext.createsAutomatically].
    unfold useShopifyCheckoutWithContext.createsAutomatically.
    cbn [Js.truthy negb andb].
    rewrite run_createCheckoutWithContext. rewrite after_nil. reflexivity.
  - destruct (data (checkoutCreate gateway' [])); cbn;
      rewrite <- app_assoc; repeat split.
Qed.


(** While the gateway rejects the creation of a checkout, every run of the
    effect with auto-create asks again: the persisted state stays as it
    is, without a checkout id, and each run makes one more request. *)
Theorem createEffect_asks_again_after_rejection (renders : Lifetime) (s : Store) :
  checkoutId (persisted s) = None ->
  forallb (fun c => rejectsCheckout (fst c)
                    && match snd c with CreateEffect true => true | _ => false end)
          renders = true ->
  exists s',
    after renders s = Some s' /\
    persisted s' = persisted s /\
    sessionIsNew s' = sessionIsNew s /\
    requests s' = (requests s ++ repeat (CheckoutCreate []) (List.length renders))%list /\
    automaticCreations renders s = List.length renders.
Proof.
  revert s. induction renders as [| [gateway call] rest IH]; intros s Hnone Hall.
  - exists s. repeat split. cbn. now rewrite app_nil_r.
  - cbn [forallb fst snd] in Hall.
    apply andb_true_iff in Hall as [Hcall Hrest].
    apply andb_true_iff in Hcall as [Hrejects Hcall].
    destruct call as [| [|] | | | | | | | |]; try discriminate.
    unfold rejectsCheckout in Hrejects.
    assert (Hrun : run (perform gateway (CreateEffect true)) s =
                   inr (tt, requested (CheckoutCreate []) s)).
    { rewrite run_perform_CreateEffect.
      unfold useShopifyCheckoutWithContext.createsAutomatically.
      rewrite Hnone. cbn [Js.truthy negb andb].
      rewrite run_createCheckoutWithContext.
      destruct (data (checkoutCreate gateway [])); [discriminate | reflexivity]. }
    destruct (IH (requested (CheckoutCreate []) s) Hnone Hrest)
      as (s' & Hafter & Hstate & Hflag & Hlog & Hcount).
    exists s'. split; [now rewrite after_cons, Hrun |].
    split; [exact Hstate |]. split; [exact Hflag |]. split.
    + rewrite Hlog. cbn. now rewrite <- app_assoc.
    + unfold automaticCreations in *. cbn [count]. rewrite Hrun, Hcount.
      unfold startsCreation,
        useShopifyCheckoutWithContext.createsAutomatically.
      now rewrite Hnone.
Qed.

Lemma createEffect_asks_again_after_rejection_witness :
  exists s',
    after [ (rejecting [], CreateEffect true); (rejecting [], CreateEffect true);
            (rejecting [], CreateEffect true) ] freshStore = Some s' /\
    requests s' = [CheckoutCreate []; CheckoutCreate []; CheckoutCreate []] /\
    checkoutId (persisted s') = None.
Proof.
  destruct (createEffect_asks_again_after_rejection
              [ (rejecting [], CreateEffect true); (rejecting [], CreateEffect true);
                (rejecting [], CreateEffect true) ] freshStore eq_refl eq_refl)
    as (s' & Hafter & Hstate & _ & Hlog & _).
  exists s'. split; [exact Hafter |]. split; [exact Hlog | now rewrite Hstate].
Defined.

Lemma addToCheckout_prepends_iff_witness :
  let item := {| variantId := IDString "v1"; quantity := 2;
                 customAttributes := None |} in
  nextLineItems (IDString "v2") [item] (Some 3%Z) None =
    {| variantId := IDString "v2"; quantity := 3; customAttributes := None |}
    :: [item] /\
  duplicates (IDInt 2) item = true.
Proof.
  intros item. split.
  - apply (addToCheckout_prepends_iff (IDString "v2") [item] (Some 3%Z) None).
    intros lineItem [<- | []]. split; discriminate.
  - apply (addToCheckout_prepends_iff (IDInt 2) [item] None None).
    now right.
Defined.
